(** * DisneyBRDF: the parameter store, the presets and the torus-knot sampler

    A shallow embedding of [disney_brdf_pyvista.py].

    - Part 1 ([Module Demo]) embeds the module-level dictionary [params], the
      function [update_materials], the ten slider callbacks and
      [apply_preset].  Python floats are read as exact rationals ([Q]): every
      literal of the script is a finite decimal, and the only arithmetic the
      script performs on them is [1.0 + specular * 0.8].
    - Part 2 ([Module Knot]) embeds [create_torus_knot] in binary64
      arithmetic, the arithmetic the array library computes in.  Calls of the
      math library ([np.cos], [np.sin]) are kept as calls on their binary64
      argument; their results are not asserted.
    - Part 3 ([Module Ui]) embeds the slider creation and the banner.

    The rendering toolkit is outside the script.  Its actors are modelled by
    the setter contract only: a property holds the value last written to it,
    and every call made by the script is appended to a log. *)

From Stdlib Require Import QArith Qround Lqa Lia List String Bool ZArith.
From Stdlib Require Import PrimFloat Uint63 Ascii.
Import ListNotations.

#[local] Set Warnings "-inexact-float".

Module Demo.

Local Open Scope Q_scope.

(** ** The parameter store *)

(** [params = { 'base_color': [...], 'metallic': ..., ... }]: a dictionary with
    a fixed set of eight keys; ['base_color'] holds a Python list. *)
Record Params : Type := mkParams {
  base_color : list Q;
  metallic : Q;
  roughness : Q;
  specular : Q;
  anisotropic : Q;
  anisotropic_rotation : Q;
  clearcoat : Q;
  clearcoat_roughness : Q
}.

(** The dictionary literal of the script. *)
Definition params0 : Params :=
  {| base_color := [0.5; 0.5; 0.5];
     metallic := 0.0;
     roughness := 0.5;
     specular := 0.5;
     anisotropic := 0.0;
     anisotropic_rotation := 0.0;
     clearcoat := 0.0;
     clearcoat_roughness := 0.0 |}.

(** Item assignment [params[key] = value], one function per key. *)
Definition set_base_color (c : list Q) (p : Params) : Params :=
  mkParams c (metallic p) (roughness p) (specular p) (anisotropic p)
           (anisotropic_rotation p) (clearcoat p) (clearcoat_roughness p).
Definition set_metallic (v : Q) (p : Params) : Params :=
  mkParams (base_color p) v (roughness p) (specular p) (anisotropic p)
           (anisotropic_rotation p) (clearcoat p) (clearcoat_roughness p).
Definition set_roughness (v : Q) (p : Params) : Params :=
  mkParams (base_color p) (metallic p) v (specular p) (anisotropic p)
           (anisotropic_rotation p) (clearcoat p) (clearcoat_roughness p).
Definition set_specular (v : Q) (p : Params) : Params :=
  mkParams (base_color p) (metallic p) (roughness p) v (anisotropic p)
           (anisotropic_rotation p) (clearcoat p) (clearcoat_roughness p).
Definition set_anisotropic (v : Q) (p : Params) : Params :=
  mkParams (base_color p) (metallic p) (roughness p) (specular p) v
           (anisotropic_rotation p) (clearcoat p) (clearcoat_roughness p).
Definition set_anisotropic_rotation (v : Q) (p : Params) : Params :=
  mkParams (base_color p) (metallic p) (roughness p) (specular p)
           (anisotropic p) v (clearcoat p) (clearcoat_roughness p).
Definition set_clearcoat (v : Q) (p : Params) : Params :=
  mkParams (base_color p) (metallic p) (roughness p) (specular p)
           (anisotropic p) (anisotropic_rotation p) v (clearcoat_roughness p).
Definition set_clearcoat_roughness (v : Q) (p : Params) : Params :=
  mkParams (base_color p) (metallic p) (roughness p) (specular p)
           (anisotropic p) (anisotropic_rotation p) (clearcoat p) v.

(** [l[i] = v] on a Python list: [None] stands for [IndexError]. *)
Fixpoint list_setitem (l : list Q) (i : nat) (v : Q) : option (list Q) :=
  match l, i with
  | [], _ => None
  | _ :: t, O => Some (v :: t)
  | h :: t, S j =>
      match list_setitem t j v with
      | Some t' => Some (h :: t')
      | None => None
      end
  end.

(** ** Render actors and the call log *)

Inductive Actor : Type := sphere_actor | torus_actor.

(** The eight property setters the script calls on [actor.GetProperty()]. *)
Inductive Setter : Type :=
| SetColor (color : list Q)
| SetMetallic (v : Q)
| SetRoughness (v : Q)
| SetBaseIOR (v : Q)
| SetAnisotropy (v : Q)
| SetAnisotropyRotation (v : Q)
| SetCoatStrength (v : Q)
| SetCoatRoughness (v : Q).

(** What an actor's property object holds.  [None]: never written by the
    script (the toolkit's own default applies). *)
Record Property : Type := mkProperty {
  Color : option (list Q);
  Metallic : option Q;
  Roughness : option Q;
  BaseIOR : option Q;
  Anisotropy : option Q;
  AnisotropyRotation : option Q;
  CoatStrength : option Q;
  CoatRoughness : option Q
}.

Definition write (s : Setter) (pr : Property) : Property :=
  match s with
  | SetColor c =>
      mkProperty (Some c) (Metallic pr) (Roughness pr) (BaseIOR pr)
                 (Anisotropy pr) (AnisotropyRotation pr) (CoatStrength pr)
                 (CoatRoughness pr)
  | SetMetallic v =>
      mkProperty (Color pr) (Some v) (Roughness pr) (BaseIOR pr)
                 (Anisotropy pr) (AnisotropyRotation pr) (CoatStrength pr)
                 (CoatRoughness pr)
  | SetRoughness v =>
      mkProperty (Color pr) (Metallic pr) (Some v) (BaseIOR pr)
                 (Anisotropy pr) (AnisotropyRotation pr) (CoatStrength pr)
                 (CoatRoughness pr)
  | SetBaseIOR v =>
      mkProperty (Color pr) (Metallic pr) (Roughness pr) (Some v)
                 (Anisotropy pr) (AnisotropyRotation pr) (CoatStrength pr)
                 (CoatRoughness pr)
  | SetAnisotropy v =>
      mkProperty (Color pr) (Metallic pr) (Roughness pr) (BaseIOR pr)
                 (Some v) (AnisotropyRotation pr) (CoatStrength pr)
                 (CoatRoughness pr)
  | SetAnisotropyRotation v =>
      mkProperty (Color pr) (Metallic pr) (Roughness pr) (BaseIOR pr)
                 (Anisotropy pr) (Some v) (CoatStrength pr) (CoatRoughness pr)
  | SetCoatStrength v =>
      mkProperty (Color pr) (Metallic pr) (Roughness pr) (BaseIOR pr)
                 (Anisotropy pr) (AnisotropyRotation pr) (Some v)
                 (CoatRoughness pr)
  | SetCoatRoughness v =>
      mkProperty (Color pr) (Metallic pr) (Roughness pr) (BaseIOR pr)
                 (Anisotropy pr) (AnisotropyRotation pr) (CoatStrength pr)
                 (Some v)
  end.

(** A colour setter takes three components; anything else is rejected by the
    toolkit binding with a [TypeError]. *)
Definition accepted (s : Setter) : bool :=
  match s with
  | SetColor c => Nat.eqb (List.length c) 3
  | _ => true
  end.

Inductive Event : Type :=
| Call (a : Actor) (s : Setter)
| Render
| Print (msg : string).

(** Everything the callbacks can touch: the dictionary, the two actors and
    the sequence of calls made into the toolkit and to [print]. *)
Record World : Type := mkWorld {
  params : Params;
  sphere : Property;
  torus : Property;
  log : list Event
}.

Definition property_of (a : Actor) (w : World) : Property :=
  match a with
  | sphere_actor => sphere w
  | torus_actor => torus w
  end.

(** ** A state-and-exception monad for the callbacks *)

Inductive exn : Type := IndexError | TypeError.

Inductive outcome (A : Type) : Type :=
| Done (a : A) (w : World)
| Raised (e : exn) (w : World).
Arguments Done {A} a w.
Arguments Raised {A} e w.

Definition M (A : Type) : Type := World -> outcome A.

Definition ret {A : Type} (a : A) : M A := fun w => Done a w.

Definition bind {A B : Type} (m : M A) (k : A -> M B) : M B :=
  fun w =>
    match m w with
    | Done a w' => k a w'
    | Raised e w' => Raised e w'
    end.

Declare Scope py_scope.
Delimit Scope py_scope with py.
Notation "x <- m ;; k" := (bind m (fun x => k))
  (at level 100, m at next level, right associativity) : py_scope.
Notation "m ;; k" := (bind m (fun _ => k))
  (at level 100, right associativity) : py_scope.
Local Open Scope py_scope.

(** [params[key]] *)
Definition param {A : Type} (key : Params -> A) : M A :=
  fun w => Done (key (params w)) w.

(** [params[key] = value] *)
Definition assign (upd : Params -> Params) : M unit :=
  fun w => Done tt (mkWorld (upd (params w)) (sphere w) (torus w) (log w)).

(** [params['base_color'][i] = value] *)
Definition assign_channel (i : nat) (value : Q) : M unit :=
  fun w =>
    match list_setitem (base_color (params w)) i value with
    | Some c =>
        Done tt (mkWorld (set_base_color c (params w)) (sphere w) (torus w)
                         (log w))
    | None => Raised IndexError w
    end.

(** [actor.GetProperty().Setter(value)] *)
Definition call (a : Actor) (s : Setter) : M unit :=
  fun w =>
    if accepted s then
      match a with
      | sphere_actor =>
          Done tt (mkWorld (params w) (write s (sphere w)) (torus w)
                           (log w ++ [Call a s]))
      | torus_actor =>
          Done tt (mkWorld (params w) (sphere w) (write s (torus w))
                           (log w ++ [Call a s]))
      end
    else Raised TypeError w.

(** [plotter.render()] *)
Definition render : M unit :=
  fun w => Done tt (mkWorld (params w) (sphere w) (torus w) (log w ++ [Render])).

(** [print(msg)] *)
Definition print (msg : string) : M unit :=
  fun w =>
    Done tt (mkWorld (params w) (sphere w) (torus w) (log w ++ [Print msg])).

(** ** [update_materials] *)

(** [ior = 1.0 + params['specular'] * 0.8] *)
Definition ior (specular : Q) : Q := 1.0 + specular * 0.8.

(** The same expression in binary64 arithmetic, the way the interpreter
    evaluates it; each literal denotes the nearest binary64 number. *)
Definition ior_binary64 (specular : float) : float :=
  (1.0 + specular * 0.8)%float.

Definition update_materials : M unit :=
  color <- param base_color ;;
  s <- param specular ;;
  let ior := ior s in
  call sphere_actor (SetColor color) ;;
  v <- param metallic ;; call sphere_actor (SetMetallic v) ;;
  v <- param roughness ;; call sphere_actor (SetRoughness v) ;;
  call sphere_actor (SetBaseIOR ior) ;;
  v <- param anisotropic ;; call sphere_actor (SetAnisotropy v) ;;
  v <- param anisotropic_rotation ;;
  call sphere_actor (SetAnisotropyRotation v) ;;
  v <- param clearcoat ;; call sphere_actor (SetCoatStrength v) ;;
  v <- param clearcoat_roughness ;; call sphere_actor (SetCoatRoughness v) ;;
  call torus_actor (SetColor color) ;;
  v <- param metallic ;; call torus_actor (SetMetallic v) ;;
  v <- param roughness ;; call torus_actor (SetRoughness v) ;;
  call torus_actor (SetBaseIOR ior) ;;
  v <- param anisotropic ;; call torus_actor (SetAnisotropy v) ;;
  v <- param anisotropic_rotation ;;
  call torus_actor (SetAnisotropyRotation v) ;;
  v <- param clearcoat ;; call torus_actor (SetCoatStrength v) ;;
  v <- param clearcoat_roughness ;; call torus_actor (SetCoatRoughness v) ;;
  render.

(** ** Slider callbacks *)

Definition update_metallic (value : Q) : M unit :=
  assign (set_metallic value) ;; update_materials.

Definition update_roughness (value : Q) : M unit :=
  assign (set_roughness value) ;; update_materials.

Definition update_specular (value : Q) : M unit :=
  assign (set_specular value) ;; update_materials.

Definition update_anisotropic (value : Q) : M unit :=
  assign (set_anisotropic value) ;; update_materials.

Definition update_anisotropic_rotation (value : Q) : M unit :=
  assign (set_anisotropic_rotation value) ;; update_materials.

Definition update_clearcoat (value : Q) : M unit :=
  assign (set_clearcoat value) ;; update_materials.

Definition update_clearcoat_roughness (value : Q) : M unit :=
  assign (set_clearcoat_roughness value) ;; update_materials.

Definition update_base_color_r (value : Q) : M unit :=
  assign_channel 0 value ;; update_materials.

Definition update_base_color_g (value : Q) : M unit :=
  assign_channel 1 value ;; update_materials.

Definition update_base_color_b (value : Q) : M unit :=
  assign_channel 2 value ;; update_materials.

(** The ten sliders registered by the script, in registration order, and the
    callback each one was given. *)
Inductive Slider : Type :=
| Red | Green | Blue
| SliderMetallic | SliderRoughness | SliderSpecular | SliderAnisotropic
| SliderAnisoRotation | SliderClearcoat | SliderClearcoatRough.

Definition callback (s : Slider) : Q -> M unit :=
  match s with
  | Red => update_base_color_r
  | Green => update_base_color_g
  | Blue => update_base_color_b
  | SliderMetallic => update_metallic
  | SliderRoughness => update_roughness
  | SliderSpecular => update_specular
  | SliderAnisotropic => update_anisotropic
  | SliderAnisoRotation => update_anisotropic_rotation
  | SliderClearcoat => update_clearcoat
  | SliderClearcoatRough => update_clearcoat_roughness
  end.

(** The store field a slider stands for; a colour slider stands for one item
    of the list under ['base_color']. *)
Definition field (s : Slider) (p : Params) : option Q :=
  match s with
  | Red => nth_error (base_color p) 0
  | Green => nth_error (base_color p) 1
  | Blue => nth_error (base_color p) 2
  | SliderMetallic => Some (metallic p)
  | SliderRoughness => Some (roughness p)
  | SliderSpecular => Some (specular p)
  | SliderAnisotropic => Some (anisotropic p)
  | SliderAnisoRotation => Some (anisotropic_rotation p)
  | SliderClearcoat => Some (clearcoat p)
  | SliderClearcoatRough => Some (clearcoat_roughness p)
  end.

(** ** Presets *)

(** One entry of the [presets] dictionary.  ['color'], ['metallic'] and
    ['roughness'] are read by subscript; the other three are read with
    [.get(key, default)], so they may be absent. *)
Record Preset : Type := mkPreset {
  preset_color : list Q;
  preset_metallic : Q;
  preset_roughness : Q;
  preset_specular : option Q;
  preset_anisotropic : option Q;
  preset_clearcoat : option Q
}.

(** [d.get(key, default)] on an entry that may be absent. *)
Definition get_default (entry : option Q) (default : Q) : Q :=
  match entry with
  | Some v => v
  | None => default
  end.

(** The dictionary literal [presets] of [apply_preset], in source order. *)
Definition presets : list (string * Preset) :=
  [ ("gold"%string,
     mkPreset [1.0; 0.7; 0.3] 1.0 0.2 (Some 0.5) (Some 0.0) (Some 0.0));
    ("chrome"%string,
     mkPreset [0.88; 0.88; 0.88] 1.0 0.05 (Some 0.5) (Some 0.0) (Some 0.0));
    ("plastic"%string,
     mkPreset [0.8; 0.2; 0.2] 0.0 0.3 (Some 0.5) (Some 0.0) (Some 0.5));
    ("rubber"%string,
     mkPreset [0.15; 0.15; 0.15] 0.0 0.9 (Some 0.5) (Some 0.0) (Some 0.0));
    ("wood"%string,
     mkPreset [0.42; 0.2; 0.06] 0.0 0.7 (Some 0.5) (Some 0.0) (Some 0.1));
    ("car_paint"%string,
     mkPreset [0.8; 0.0; 0.0] 0.0 0.1 (Some 0.5) (Some 0.0) (Some 1.0));
    ("brushed_metal"%string,
     mkPreset [0.7; 0.7; 0.7] 1.0 0.3 (Some 0.5) (Some 0.8) (Some 0.0)) ].

(** [presets[preset_name]]; [None] when [preset_name not in presets]. *)
Fixpoint lookup (d : list (string * Preset)) (key : string) : option Preset :=
  match d with
  | [] => None
  | (k, v) :: rest => if String.eqb key k then Some v else lookup rest key
  end.

(** The body of [apply_preset], for an arbitrary preset dictionary. *)
Definition apply_preset_from (d : list (string * Preset))
    (preset_name : string) : M unit :=
  match lookup d preset_name with
  | Some preset =>
      assign (set_base_color (preset_color preset)) ;;
      assign (set_metallic (preset_metallic preset)) ;;
      assign (set_roughness (preset_roughness preset)) ;;
      assign (set_specular (get_default (preset_specular preset) 0.5)) ;;
      assign (set_anisotropic (get_default (preset_anisotropic preset) 0.0)) ;;
      assign (set_anisotropic_rotation 0.0) ;;
      assign (set_clearcoat (get_default (preset_clearcoat preset) 0.0)) ;;
      assign (set_clearcoat_roughness 0.0) ;;
      update_materials ;;
      print ("Applied preset: " ++ preset_name)
  | None => ret tt
  end.

Definition apply_preset (preset_name : string) : M unit :=
  apply_preset_from presets preset_name.

(** The keys of [presets]: gold, chrome, plastic, rubber, wood, car_paint
    and brushed_metal. *)
Definition preset_names : list string := map fst presets.

(** ** The world before the sliders are created *)

(** The toolkit keeps a colour it is given through [add_mesh] in 8-bit
    channels: a component [c] becomes [round(255 * c) / 255], halves going to
    the even neighbour (0.5 becomes 128/255). *)
Definition channel8 (c : Q) : Q :=
  let x := 255 * c in
  let f := Qfloor x in
  let twice := 2 * (x - inject_Z f) in
  let n :=
    match twice ?= 1 with
    | Lt => f
    | Gt => (f + 1)%Z
    | Eq => if Z.even f then f else (f + 1)%Z
    end in
  Qmake n 255.

(** [plotter.add_mesh(mesh, color=params['base_color'], pbr=True,
    metallic=params['metallic'], roughness=params['roughness'], ...)]:
    what the new actor holds. *)
Definition add_mesh (p : Params) : Property :=
  mkProperty (Some (map channel8 (base_color p))) (Some (metallic p))
             (Some (roughness p)) None None None None None.

(** The world once both [add_mesh] calls have returned, before the sliders
    are created.  Creating a slider makes the toolkit call its callback once
    with the slider's initial value; each of these calls is a slider step
    from here. *)
Definition world0 : World :=
  mkWorld params0 (add_mesh params0) (add_mesh params0) [].

(** ** Predicates used by the statements *)

Definition unit_interval (x : Q) : Prop := 0 <= x /\ x <= 1.

(** Every field of the store is inside its declared range. *)
Definition in_range (p : Params) : Prop :=
  Forall unit_interval (base_color p) /\
  unit_interval (metallic p) /\
  unit_interval (roughness p) /\
  unit_interval (specular p) /\
  unit_interval (anisotropic p) /\
  unit_interval (anisotropic_rotation p) /\
  unit_interval (clearcoat p) /\
  unit_interval (clearcoat_roughness p).

(** The colour is an RGB triple. *)
Definition rgb (p : Params) : Prop := List.length (base_color p) = 3%nat.

(** The sixteen setter calls and the redraw that one push performs for a
    store [p]. *)
Definition setters (p : Params) : list Setter :=
  [ SetColor (base_color p);
    SetMetallic (metallic p);
    SetRoughness (roughness p);
    SetBaseIOR (ior (specular p));
    SetAnisotropy (anisotropic p);
    SetAnisotropyRotation (anisotropic_rotation p);
    SetCoatStrength (clearcoat p);
    SetCoatRoughness (clearcoat_roughness p) ].

Definition pushed (p : Params) : list Event :=
  map (Call sphere_actor) (setters p) ++ map (Call torus_actor) (setters p)
  ++ [Render].

(** What an actor holds once all eight setters ran for a store [p]. *)
Definition shown (p : Params) : Property :=
  mkProperty (Some (base_color p)) (Some (metallic p)) (Some (roughness p))
             (Some (ior (specular p))) (Some (anisotropic p))
             (Some (anisotropic_rotation p)) (Some (clearcoat p))
             (Some (clearcoat_roughness p)).

Definition is_render (e : Event) : bool :=
  match e with
  | Render => true
  | _ => false
  end.

(** The store a preset entry leaves behind. *)
Definition installed (preset : Preset) : Params :=
  mkParams (preset_color preset) (preset_metallic preset)
           (preset_roughness preset)
           (get_default (preset_specular preset) 0.5)
           (get_default (preset_anisotropic preset) 0.0)
           0.0
           (get_default (preset_clearcoat preset) 0.0)
           0.0.

(** States the running program can be in: from [world0], any sequence of
    slider callbacks with a value of the widget's domain [0.0, 1.0] (the
    calls made when the sliders are created, and every drag) and of preset
    calls. *)
Inductive reachable : World -> Prop :=
| reach_start : reachable world0
| reach_slider (s : Slider) (v : Q) (w w' : World) :
    reachable w -> unit_interval v -> callback s v w = Done tt w' ->
    reachable w'
| reach_preset (name : string) (w w' : World) :
    reachable w -> apply_preset name w = Done tt w' -> reachable w'.

(** The store after a slider callback, as a function of the store before. *)
Definition dragged (s : Slider) (v : Q) (p : Params) : option Params :=
  match s with
  | Red => option_map (fun c => set_base_color c p)
                      (list_setitem (base_color p) 0 v)
  | Green => option_map (fun c => set_base_color c p)
                        (list_setitem (base_color p) 1 v)
  | Blue => option_map (fun c => set_base_color c p)
                       (list_setitem (base_color p) 2 v)
  | SliderMetallic => Some (set_metallic v p)
  | SliderRoughness => Some (set_roughness v p)
  | SliderSpecular => Some (set_specular v p)
  | SliderAnisotropic => Some (set_anisotropic v p)
  | SliderAnisoRotation => Some (set_anisotropic_rotation v p)
  | SliderClearcoat => Some (set_clearcoat v p)
  | SliderClearcoatRough => Some (set_clearcoat_roughness v p)
  end.

End Demo.

Module Knot.

Local Open Scope float_scope.

(** ** The array library, as far as [create_torus_knot] uses it *)

(** [ValueError]: the sampling call's rejection of a negative count.
    [CannotBuild]: whichever error the array library raises for a count it
    cannot build an array for (a [MemoryError], or the [ValueError] and
    [IndexError] of counts beyond its largest dimension). *)
Inductive exn : Type := ValueError | CannotBuild.

Inductive result (A : Type) : Type :=
| Returns (a : A)
| Raises (e : exn).
Arguments Returns {A} a.
Arguments Raises {A} e.

(** [np.pi], the binary64 number nearest to pi. *)
Definition pi : float := 0x1.921fb54442d18p+1.

(** Counts from here upwards exceed the largest dimension of an array. *)
Definition max_dimension : Z := (2 ^ 62)%Z.

(** Whether an array of [num] binary64 items can be built on a platform
    that can hold [capacity] of them. *)
Definition buildable (capacity num : Z) : bool :=
  ((num <=? capacity) && (num <? max_dimension))%Z.

(** The item [i] of [np.arange(0, num, dtype=float64)]. *)
Definition float_of_nat (i : nat) : float :=
  of_uint63 (Uint63.of_Z (Z.of_nat i)).

(** [np.linspace(start, stop, num)] with the default [endpoint=True]:
    a negative [num] is a [ValueError]; otherwise
    [div = num - 1], [delta = stop - start], [step = delta / div],
    [y = arange(0, num) * step + start]
    ([arange(0, num) / div * delta + start] when [step] is 0, and
    [arange(0, num) * delta + start] when [div] is 0), and the last item is
    overwritten with [stop] when [num > 1]. *)
Definition linspace (capacity : Z) (start stop : float) (num : Z)
    : result (list float) :=
  if (num <? 0)%Z then Raises ValueError
  else if negb (buildable capacity num) then Raises CannotBuild
  else
    let n := Z.to_nat num in
    let div := (n - 1)%nat in
    let delta := stop - start in
    let step := delta / float_of_nat div in
    Returns
      (map (fun i : nat =>
              if ((1 <? n)%nat && (i =? div)%nat)%bool then stop
              else if (0 <? div)%nat then
                (if step =? 0 then float_of_nat i / float_of_nat div * delta
                 else float_of_nat i * step) + start
              else float_of_nat i * delta + start)
           (seq 0 n)).

(** A value the script computes from binary64 numbers: a number, or a call
    of the math library's cosine or sine, or arithmetic on such calls. *)
Inductive term : Type :=
| Num (x : float)
| Cos (a : term)
| Sin (a : term)
| Add (a b : term)
| Mul (a b : term)
| Neg (a : term).

(** Element-wise binary operation on two arrays of the same length. *)
Fixpoint zip_with {A B C : Type} (f : A -> B -> C) (a : list A) (b : list B)
    : list C :=
  match a, b with
  | x :: a', y :: b' => f x y :: zip_with f a' b'
  | _, _ => []
  end.

(** [np.column_stack([x, y, z])] *)
Definition column_stack (x y z : list term) : list (term * term * term) :=
  zip_with (fun xy c => (fst xy, snd xy, c)) (zip_with pair x y) z.

(** ** [create_torus_knot] *)

(** The request handed to the toolkit:
    [pv.Spline(points, n_points).tube(radius=radius, n_sides=n_sides)]. *)
Record Tube : Type := mkTube {
  points : list (term * term * term);
  n_points : Z;
  radius : float;
  n_sides : Z
}.

(** [2*np.pi] *)
Definition two_pi : float := 2 * pi.

(** [t = np.linspace(0, 2*np.pi, resolution)] *)
Definition knot_t (capacity resolution : Z) : result (list float) :=
  linspace capacity 0 two_pi resolution.

(** The winding parameters enter only through the products [q * t] and
    [p * t], which the array library computes in binary64; [p] and [q] are
    given here as binary64 numbers (the defaults 2 and 3 are exact).
    The value returned on success stands for the call into the toolkit's
    sweep with these arguments; what the toolkit builds from them is outside
    the script. *)
Definition create_torus_knot (capacity : Z) (p q : float) (resolution : Z)
    : result Tube :=
  match knot_t capacity resolution with
  | Raises e => Raises e
  | Returns t =>
      let r := map (fun c => Add c (Num 2))
                   (map (fun ti => Cos (Num (q * ti))) t) in
      let x := zip_with Mul r (map (fun ti => Cos (Num (p * ti))) t) in
      let y := zip_with Mul r (map (fun ti => Sin (Num (p * ti))) t) in
      let z := map (fun ti => Neg (Sin (Num (q * ti)))) t in
      let points := column_stack x y z in
      Returns (mkTube points (resolution * 2) 0.3 20)
  end.

(** [torus_knot = create_torus_knot()], with the defaults
    [p=2, q=3, resolution=100]. *)
Definition torus_knot (capacity : Z) : result Tube :=
  create_torus_knot capacity 2 3 100.

(** The point of the knot at curve parameter [t]. *)
Definition curve (p q : float) (t : float) : term * term * term :=
  let r := Add (Cos (Num (q * t))) (Num 2) in
  (Mul r (Cos (Num (p * t))), Mul r (Sin (Num (p * t))),
   Neg (Sin (Num (q * t)))).

(** The value of a term, for a given cosine and sine on binary64. *)
Fixpoint value (cosine sine : float -> float) (a : term) : float :=
  match a with
  | Num x => x
  | Cos b => cosine (value cosine sine b)
  | Sin b => sine (value cosine sine b)
  | Add b c => value cosine sine b + value cosine sine c
  | Mul b c => value cosine sine b * value cosine sine c
  | Neg b => - value cosine sine b
  end.

End Knot.

(** * The slider widgets and the start-up banner *)

Module Ui.

Import Demo.

Local Open Scope Q_scope.

(** What [plotter.add_slider_widget] is given for one slider. *)
Record SliderWidget : Type := mkSliderWidget {
  widget_callback : Q -> M unit;
  widget_range : Q * Q;
  widget_value : Q;
  widget_title : string;
  widget_pointa : Q * Q;
  widget_pointb : Q * Q;
  widget_style : string
}.

(** [create_slider(name, min_val, max_val, value, pointa, pointb, callback)]:
    [plotter.add_slider_widget(callback, [min_val, max_val], value=value,
    title=name, pointa=pointa, pointb=pointb, style='modern')]. *)
Definition create_slider (name : string) (min_val max_val value : Q)
    (pointa pointb : Q * Q) (callback : Q -> M unit) : SliderWidget :=
  mkSliderWidget callback (min_val, max_val) value name pointa pointb "modern".

(** The ten [create_slider] calls of the script, in order, for the store [p]
    they read their initial values from.  [None] stands for the [IndexError]
    of [params['base_color'][i]] on a list that is too short. *)
Definition add_sliders (p : Params) : option (list SliderWidget) :=
  match nth_error (base_color p) 0, nth_error (base_color p) 1,
        nth_error (base_color p) 2 with
  | Some r, Some g, Some b =>
      Some
        [ create_slider "Red" 0.0 1.0 r
                        (0.02, 0.95) (0.3, 0.95) update_base_color_r;
          create_slider "Green" 0.0 1.0 g
                        (0.02, 0.90) (0.3, 0.90) update_base_color_g;
          create_slider "Blue" 0.0 1.0 b
                        (0.02, 0.85) (0.3, 0.85) update_base_color_b;
          create_slider "Metallic" 0.0 1.0 (metallic p)
                        (0.02, 0.75) (0.3, 0.75) update_metallic;
          create_slider "Roughness" 0.0 1.0 (roughness p)
                        (0.02, 0.70) (0.3, 0.70) update_roughness;
          create_slider "Specular (IOR)" 0.0 1.0 (specular p)
                        (0.02, 0.65) (0.3, 0.65) update_specular;
          create_slider "Anisotropic" 0.0 1.0 (anisotropic p)
                        (0.02, 0.60) (0.3, 0.60) update_anisotropic;
          create_slider "Aniso Rotation" 0.0 1.0 (anisotropic_rotation p)
                        (0.02, 0.55) (0.3, 0.55) update_anisotropic_rotation;
          create_slider "Clearcoat" 0.0 1.0 (clearcoat p)
                        (0.02, 0.50) (0.3, 0.50) update_clearcoat;
          create_slider "Clearcoat Rough" 0.0 1.0 (clearcoat_roughness p)
                        (0.02, 0.45) (0.3, 0.45) update_clearcoat_roughness ]
  | _, _, _ => None
  end.

(** The index a colour slider writes, if it is one. *)
Definition channel (s : Slider) : option nat :=
  match s with
  | Red => Some 0%nat
  | Green => Some 1%nat
  | Blue => Some 2%nat
  | _ => None
  end.

(** Each item is smaller than the one before it. *)
Fixpoint descending (l : list Q) : Prop :=
  match l with
  | a :: (b :: _) as rest => b < a /\ descending rest
  | _ => True
  end.

(** The preset lines of the banner the script prints before [plotter.show()]. *)
Definition banner_presets : list string :=
  [ "  - apply_preset('gold')";
    "  - apply_preset('chrome')";
    "  - apply_preset('plastic')";
    "  - apply_preset('rubber')";
    "  - apply_preset('wood')";
    "  - apply_preset('car_paint')     # Red car paint with clearcoat";
    "  - apply_preset('brushed_metal')  # Anisotropic metal" ]%string.

(** The text after the first single quote of a line. *)
Fixpoint after_quote (s : string) : option string :=
  match s with
  | EmptyString => None
  | String c rest =>
      if Ascii.eqb c "'"%char then Some rest else after_quote rest
  end.

(** The text before the first single quote of a line. *)
Fixpoint until_quote (s : string) : option string :=
  match s with
  | EmptyString => None
  | String c rest =>
      if Ascii.eqb c "'"%char then Some EmptyString
      else option_map (String c) (until_quote rest)
  end.

(** The argument of the command a banner line shows: the text between its
    first two single quotes. *)
Definition quoted (line : string) : option string :=
  match after_quote line with
  | Some rest => until_quote rest
  | None => None
  end.

(** Event classifiers for the call log. *)
Definition is_call (e : Event) : bool :=
  match e with
  | Call _ _ => true
  | _ => false
  end.


End Ui.

(** * Properties of the parameter store and the push *)

Import Demo.

Section DemoFacts.

Local Open Scope Q_scope.

(** ** Basic facts about the monad and the push *)

Lemma bind_done {A B : Type} (m : M A) (k : A -> M B) (w w' : World) (a : A) :
  m w = Done a w' -> bind m k w = k a w'.
Proof. intros E. unfold bind. rewrite E. reflexivity. Qed.

Lemma bind_assign {B : Type} (upd : Params -> Params) (k : unit -> M B)
    (w : World) :
  bind (assign upd) k w
  = k tt (mkWorld (upd (params w)) (sphere w) (torus w) (log w)).
Proof. reflexivity. Qed.

(** One push, on a store whose colour is an RGB triple: the store is kept,
    both actors show the store, and the log grows by [pushed]. *)
Lemma update_materials_done (w : World) :
  rgb (params w) ->
  update_materials w
  = Done tt (mkWorld (params w) (shown (params w)) (shown (params w))
                     (log w ++ pushed (params w))).
Proof.
  intros Hrgb. unfold rgb in Hrgb.
  unfold update_materials, bind, param, call, render, accepted.
  rewrite Hrgb. cbn [Nat.eqb params sphere torus log write
                     Color Metallic Roughness BaseIOR Anisotropy
                     AnisotropyRotation CoatStrength CoatRoughness].
  unfold shown, pushed, setters. cbn [map].
  repeat rewrite <- app_assoc. reflexivity.
Qed.

(** On any other colour list the very first setter is rejected and nothing
    is written. *)
Lemma update_materials_raised (w : World) :
  List.length (base_color (params w)) <> 3%nat ->
  update_materials w = Raised TypeError w.
Proof.
  intros Hlen. apply Nat.eqb_neq in Hlen.
  unfold update_materials, bind, param, call, accepted.
  rewrite Hlen. reflexivity.
Qed.

Lemma list_setitem_length (l l' : list Q) (i : nat) (v : Q) :
  list_setitem l i v = Some l' -> List.length l' = List.length l.
Proof.
  revert i l'. induction l as [|h t IH]; intros [|j] l' E; cbn in E;
    try discriminate.
  - injection E as <-. reflexivity.
  - destruct (list_setitem t j v) as [t'|] eqn:Et; [|discriminate].
    injection E as <-. cbn. f_equal. eapply IH. eassumption.
Qed.

Lemma list_setitem_in_bounds (l : list Q) (i : nat) (v : Q) :
  (i < List.length l)%nat -> exists l', list_setitem l i v = Some l'.
Proof.
  revert i. induction l as [|h t IH]; intros [|j] Hlt; cbn in *; try lia.
  - eexists. reflexivity.
  - destruct (IH j) as [t' Et]; [lia|]. rewrite Et. eexists. reflexivity.
Qed.

Lemma list_setitem_same (l l' : list Q) (i : nat) (v : Q) :
  list_setitem l i v = Some l' -> nth_error l' i = Some v.
Proof.
  revert i l'. induction l as [|h t IH]; intros [|j] l' E; cbn in E;
    try discriminate.
  - injection E as <-. reflexivity.
  - destruct (list_setitem t j v) as [t'|] eqn:Et; [|discriminate].
    injection E as <-. cbn. eapply IH. eassumption.
Qed.

Lemma list_setitem_other (l l' : list Q) (i j : nat) (v : Q) :
  list_setitem l i v = Some l' -> i <> j -> nth_error l' j = nth_error l j.
Proof.
  revert i j l'. induction l as [|h t IH]; intros [|i] j l' E Hij; cbn in E;
    try discriminate.
  - injection E as <-. destruct j; [congruence | reflexivity].
  - destruct (list_setitem t i v) as [t'|] eqn:Et; [|discriminate].
    injection E as <-. destruct j as [|j]; [reflexivity|].
    cbn. eapply IH; [eassumption | congruence].
Qed.

Lemma list_setitem_Forall (P : Q -> Prop) (l l' : list Q) (i : nat) (v : Q) :
  Forall P l -> P v -> list_setitem l i v = Some l' -> Forall P l'.
Proof.
  intros Hl Hv. revert i l'.
  induction Hl as [|h t Hh Ht IH]; intros [|j] l' E; cbn in E;
    try discriminate.
  - injection E as <-. constructor; assumption.
  - destruct (list_setitem t j v) as [t'|] eqn:Et; [|discriminate].
    injection E as <-. constructor; [assumption|]. eapply IH. eassumption.
Qed.

(** A colour-channel callback on an RGB store. *)
Lemma channel_callback_done (i : nat) (v : Q) (w : World) :
  rgb (params w) -> (i < 3)%nat ->
  exists c,
    list_setitem (base_color (params w)) i v = Some c /\
    bind (assign_channel i v) (fun _ => update_materials) w
    = Done tt (mkWorld (set_base_color c (params w))
                       (shown (set_base_color c (params w)))
                       (shown (set_base_color c (params w)))
                       (log w ++ pushed (set_base_color c (params w)))).
Proof.
  intros Hrgb Hi. unfold rgb in Hrgb.
  destruct (list_setitem_in_bounds (base_color (params w)) i v) as [c Ec];
    [lia|].
  exists c. split; [exact Ec|].
  unfold bind, assign_channel. rewrite Ec.
  rewrite update_materials_done; [reflexivity|].
  unfold rgb. cbn. rewrite (list_setitem_length _ _ _ _ Ec). exact Hrgb.
Qed.

(** A scalar callback on an RGB store, for an update that keeps the colour. *)
Lemma scalar_callback_done (upd : Params -> Params) (w : World) :
  rgb (params w) ->
  base_color (upd (params w)) = base_color (params w) ->
  bind (assign upd) (fun _ => update_materials) w
  = Done tt (mkWorld (upd (params w)) (shown (upd (params w)))
                     (shown (upd (params w)))
                     (log w ++ pushed (upd (params w)))).
Proof.
  intros Hrgb Hc. rewrite bind_assign.
  rewrite update_materials_done; [reflexivity|].
  unfold rgb in *. cbn. rewrite Hc. exact Hrgb.
Qed.

Lemma callback_done (s : Slider) (v : Q) (w : World) :
  rgb (params w) ->
  exists p',
    dragged s v (params w) = Some p' /\
    rgb p' /\
    callback s v w
    = Done tt (mkWorld p' (shown p') (shown p') (log w ++ pushed p')).
Proof.
  intros Hrgb.
  destruct s; cbn [callback dragged];
    try (eexists; split; [reflexivity|]; split; [exact Hrgb|];
         apply scalar_callback_done; [exact Hrgb | reflexivity]).
  - destruct (channel_callback_done 0 v w Hrgb) as (c & Ec & E); [lia|].
    rewrite Ec. eexists. split; [reflexivity|]. split; [|exact E].
    unfold rgb in *. cbn. rewrite (list_setitem_length _ _ _ _ Ec). exact Hrgb.
  - destruct (channel_callback_done 1 v w Hrgb) as (c & Ec & E); [lia|].
    rewrite Ec. eexists. split; [reflexivity|]. split; [|exact E].
    unfold rgb in *. cbn. rewrite (list_setitem_length _ _ _ _ Ec). exact Hrgb.
  - destruct (channel_callback_done 2 v w Hrgb) as (c & Ec & E); [lia|].
    rewrite Ec. eexists. split; [reflexivity|]. split; [|exact E].
    unfold rgb in *. cbn. rewrite (list_setitem_length _ _ _ _ Ec). exact Hrgb.
Qed.

(** ** Presets: lookup and application *)

Lemma lookup_unknown (name : string) :
  ~ In name preset_names -> lookup presets name = None.
Proof.
  intros Hnot. unfold presets. cbn [lookup].
  repeat match goal with
  | |- context [String.eqb name ?k] =>
      destruct (String.eqb_spec name k) as [->|_];
      [exfalso; apply Hnot; cbn; tauto|]
  end.
  reflexivity.
Qed.

Lemma lookup_known (name : string) :
  In name preset_names ->
  exists preset,
    lookup presets name = Some preset /\
    List.length (preset_color preset) = 3%nat /\
    in_range (installed preset).
Proof.
  intros Hin. cbn in Hin.
  repeat (destruct Hin as [<-|Hin];
          [eexists; split; [reflexivity|]; split; [reflexivity|];
           unfold in_range, installed; cbn;
           repeat split; repeat constructor; unfold Qle; cbn; lia|]).
  contradiction.
Qed.

Lemma apply_preset_from_done (d : list (string * Preset)) (name : string)
    (preset : Preset) (w : World) :
  lookup d name = Some preset ->
  List.length (preset_color preset) = 3%nat ->
  apply_preset_from d name w
  = Done tt (mkWorld (installed preset) (shown (installed preset))
                     (shown (installed preset))
                     (log w ++ pushed (installed preset)
                            ++ [Print ("Applied preset: " ++ name)])).
Proof.
  intros Hl Hlen. unfold apply_preset_from. rewrite Hl.
  repeat rewrite bind_assign. cbn [params sphere torus log].
  erewrite (bind_done update_materials);
    [|apply update_materials_done; exact Hlen].
  unfold print. cbn [params sphere torus log].
  rewrite <- app_assoc. reflexivity.
Qed.

Lemma apply_preset_from_absent (d : list (string * Preset)) (name : string)
    (w : World) :
  lookup d name = None -> apply_preset_from d name w = Done tt w.
Proof. intros Hl. unfold apply_preset_from. rewrite Hl. reflexivity. Qed.

(** A preset entry without the optional keys installs the defaults. *)
Lemma installed_defaults (c : list Q) (m r : Q) :
  installed (mkPreset c m r None None None)
  = mkParams c m r 0.5 0.0 0.0 0.0 0.0.
Proof. reflexivity. Qed.

Example apply_preset_defaults :
  apply_preset_from [("matte"%string, mkPreset [0.2; 0.2; 0.2] 0.0 1.0
                                               None None None)]
                    "matte" world0
  = Done tt (mkWorld (mkParams [0.2; 0.2; 0.2] 0.0 1.0 0.5 0.0 0.0 0.0 0.0)
               (shown (mkParams [0.2; 0.2; 0.2] 0.0 1.0 0.5 0.0 0.0 0.0 0.0))
               (shown (mkParams [0.2; 0.2; 0.2] 0.0 1.0 0.5 0.0 0.0 0.0 0.0))
               (pushed (mkParams [0.2; 0.2; 0.2] 0.0 1.0 0.5 0.0 0.0 0.0 0.0)
                  ++ [Print "Applied preset: matte"])).
Proof. reflexivity. Qed.

(** ** What a slider callback does to the store *)

Lemma dragged_field_same (s : Slider) (v : Q) (p p' : Params) :
  dragged s v p = Some p' -> field s p' = Some v.
Proof.
  destruct s; cbn [dragged field]; intros E;
    try (injection E as <-; reflexivity);
    destruct (list_setitem (base_color p) _ v) as [c|] eqn:Ec;
    try discriminate; injection E as <-;
    cbn [set_base_color base_color];
    eapply list_setitem_same; eassumption.
Qed.

Lemma dragged_field_other (s s' : Slider) (v : Q) (p p' : Params) :
  dragged s v p = Some p' -> s' <> s -> field s' p' = field s' p.
Proof.
  intros E Hne.
  destruct s; cbn [dragged] in E;
    try (injection E as <-; destruct s'; try reflexivity; congruence);
    destruct (list_setitem (base_color p) _ v) as [c|] eqn:Ec;
    try discriminate; injection E as <-;
    destruct s'; try reflexivity; try congruence;
    cbn [field set_base_color base_color];
    eapply list_setitem_other; try eassumption; lia.
Qed.

Lemma dragged_in_range (s : Slider) (v : Q) (p p' : Params) :
  in_range p -> unit_interval v -> dragged s v p = Some p' -> in_range p'.
Proof.
  intros (Hc & Hm & Hr & Hs & Ha & Hq & Hk & Hz) Hv E.
  destruct s; cbn [dragged] in E;
    try (injection E as <-; unfold in_range; cbn; tauto);
    destruct (list_setitem (base_color p) _ v) as [c|] eqn:Ec;
    try discriminate; injection E as <-; unfold in_range; cbn;
    (split; [eapply list_setitem_Forall; eassumption | tauto]).
Qed.

(** ** The invariant of the running program *)

Lemma world0_invariant : rgb (params world0) /\ in_range (params world0).
Proof.
  split; [reflexivity|].
  unfold in_range, unit_interval. cbn.
  repeat split; repeat constructor; unfold Qle; cbn; lia.
Qed.

Lemma reachable_invariant (w : World) :
  reachable w ->
  rgb (params w) /\ in_range (params w) /\ sphere w = torus w.
Proof.
  induction 1 as [|s v w w' _ (Hrgb & Hin & _) Hv E
                  |name w w' _ (Hrgb & Hin & Hact) E].
  - destruct world0_invariant as [H1 H2].
    split; [exact H1|]. split; [exact H2|]. reflexivity.
  - destruct (callback_done s v w Hrgb) as (p' & Hd & Hrgb' & E').
    rewrite E' in E. injection E as <-. cbn [params sphere torus].
    split; [exact Hrgb'|]. split; [|reflexivity].
    eapply dragged_in_range; eassumption.
  - unfold apply_preset in E.
    destruct (lookup presets name) as [preset|] eqn:El.
    + assert (Hk : In name preset_names).
      { destruct (in_dec string_dec name preset_names) as [Hi|Hn];
          [exact Hi|].
        rewrite (lookup_unknown name Hn) in El. discriminate. }
      destruct (lookup_known name Hk) as (pr & El' & Hlen & Hr).
      rewrite El in El'. injection El' as <-.
      rewrite (apply_preset_from_done _ _ _ _ El Hlen) in E.
      injection E as <-. cbn [params sphere torus].
      split; [exact Hlen|]. split; [exact Hr|]. reflexivity.
    + rewrite (apply_preset_from_absent _ _ _ El) in E.
      injection E as <-.
      split; [exact Hrgb|]. split; [exact Hin|]. exact Hact.
Qed.

(** ** The claims about the store, the presets and the push *)

(** C2.  The derived index of refraction is the linear function
    [1.0 + specular * 0.8] of the specular parameter; for a specular value in
    [0, 1] it lies in [1.0, 1.8]; and it maps 0.0 to 1.0, 0.5 to 1.4 and
    1.0 to 1.8. *)
Theorem ior_linear_and_bounded (s : Q) :
  ior s == 1.0 + s * 0.8 /\
  (0 <= s <= 1 -> 1.0 <= ior s <= 1.8) /\
  ior 0.0 == 1.0 /\ ior 0.5 == 1.4 /\ ior 1.0 == 1.8.
Proof.
  unfold ior. split; [reflexivity|]. split.
  - intros [H0 H1]. split; Lqa.lra.
  - repeat split; reflexivity.
Qed.

(** The three quoted values are also what binary64 arithmetic returns. *)
Example ior_binary64_values :
  (ior_binary64 0.0 = 1.0 /\ ior_binary64 0.5 = 1.4 /\
   ior_binary64 1.0 = 1.8)%float.
Proof. repeat split; reflexivity. Qed.

Lemma ior_linear_and_bounded_witness :
  1.0 <= ior 0.25 <= 1.8.
Proof.
  apply (ior_linear_and_bounded 0.25).
  split; unfold Qle; cbn; lia.
Defined.

(** C4.  A preset name outside the seven defined ones leaves the whole world
    as it was: no field of the store changes, no setter is called, nothing is
    redrawn or printed, and no error is raised. *)
Theorem unknown_preset_is_noop (name : string) (w : World) :
  ~ In name preset_names -> apply_preset name w = Done tt w.
Proof.
  intros Hnot. unfold apply_preset.
  apply apply_preset_from_absent. apply lookup_unknown. exact Hnot.
Qed.

Lemma unknown_preset_is_noop_witness :
  apply_preset "silver" world0 = Done tt world0.
Proof.
  apply unknown_preset_is_noop.
  cbn. intros H.
  repeat (destruct H as [H|H]; [discriminate H|]).
  exact H.
Defined.

(** C5.  On a store whose colour is an RGB triple, the callback of any of the
    ten sliders, called with a value [v] in [0, 1], returns normally, leaves
    [v] in the field of that slider, and leaves the field of every other
    slider (and the length of the colour list) as it was. *)
Theorem slider_updates_only_its_field (s : Slider) (v : Q) (w : World) :
  rgb (params w) -> unit_interval v ->
  exists w',
    callback s v w = Done tt w' /\
    field s (params w') = Some v /\
    (forall s', s' <> s -> field s' (params w') = field s' (params w)) /\
    List.length (base_color (params w'))
    = List.length (base_color (params w)).
Proof.
  intros Hrgb _.
  destruct (callback_done s v w Hrgb) as (p' & Hd & Hrgb' & E).
  eexists. split; [exact E|]. cbn [params].
  split; [eapply dragged_field_same; exact Hd|].
  split.
  - intros s' Hne. eapply dragged_field_other; eassumption.
  - unfold rgb in *. congruence.
Qed.

Lemma slider_updates_only_its_field_witness :
  exists w',
    callback Green 0.25 world0 = Done tt w' /\
    field Green (params w') = Some 0.25 /\
    (forall s', s' <> Green ->
                field s' (params w') = field s' (params world0)) /\
    List.length (base_color (params w'))
    = List.length (base_color (params world0)).
Proof.
  apply (slider_updates_only_its_field Green 0.25 world0).
  - reflexivity.
  - split; unfold Qle; cbn; lia.
Defined.

(** C6.  Applying the preset ["chrome"] returns normally and leaves in the
    store the colour [0.88, 0.88, 0.88], metallic 1.0, roughness 0.05,
    clearcoat 0.0 and anisotropic rotation 0.0. *)
Theorem chrome_preset (w : World) :
  exists w',
    apply_preset "chrome" w = Done tt w' /\
    base_color (params w') = [0.88; 0.88; 0.88] /\
    metallic (params w') = 1.0 /\
    roughness (params w') = 0.05 /\
    clearcoat (params w') = 0.0 /\
    anisotropic_rotation (params w') = 0.0.
Proof.
  eexists. split.
  - unfold apply_preset.
    apply apply_preset_from_done with
      (preset := mkPreset [0.88; 0.88; 0.88] 1.0 0.05
                          (Some 0.5) (Some 0.0) (Some 0.0));
      reflexivity.
  - cbn. repeat split; reflexivity.
Qed.

(** C7.  On every store (with an RGB colour), one push returns normally,
    keeps the store, calls the eight setters on the sphere actor and then on
    the torus actor with the values the store holds at that moment, so that
    both actors show the store, and then requests one redraw, the only one
    and the last call of the push. *)
Theorem push_matches_store (w : World) :
  rgb (params w) ->
  exists w',
    update_materials w = Done tt w' /\
    params w' = params w /\
    (forall a, property_of a w' = shown (params w)) /\
    log w' = log w
             ++ map (Call sphere_actor) (setters (params w))
             ++ map (Call torus_actor) (setters (params w))
             ++ [Render] /\
    List.length (setters (params w)) = 8%nat /\
    filter is_render (log w') = filter is_render (log w) ++ [Render].
Proof.
  intros Hrgb. eexists. split; [apply update_materials_done; exact Hrgb|].
  cbn [params log].
  split; [reflexivity|]. split; [intros [|]; reflexivity|].
  split; [reflexivity|]. split; [reflexivity|].
  rewrite filter_app. reflexivity.
Qed.

Lemma push_matches_store_witness :
  exists w',
    update_materials world0 = Done tt w' /\
    params w' = params world0 /\
    (forall a, property_of a w' = shown (params world0)) /\
    log w' = log world0
             ++ map (Call sphere_actor) (setters (params world0))
             ++ map (Call torus_actor) (setters (params world0))
             ++ [Render] /\
    List.length (setters (params world0)) = 8%nat /\
    filter is_render (log w') = filter is_render (log world0) ++ [Render].
Proof.
  apply (push_matches_store world0). reflexivity.
Defined.



(** C9.  The store starts as mid-grey [0.5, 0.5, 0.5], metallic 0,
    roughness 0.5, specular 0.5 and 0 elsewhere.  From a store in range, a
    slider callback with a value in [0, 1] returns normally and leaves the
    store in range; a known preset returns normally and leaves the store in
    range; hence every reachable store is in range. *)
Theorem store_defaults_and_ranges (s : Slider) (v : Q) (name : string)
    (w : World) :
  rgb (params w) -> in_range (params w) -> unit_interval v ->
  In name preset_names ->
  (base_color params0 = [0.5; 0.5; 0.5] /\
   metallic params0 == 0 /\ roughness params0 == 0.5 /\
   specular params0 == 0.5 /\ anisotropic params0 == 0 /\
   anisotropic_rotation params0 == 0 /\ clearcoat params0 == 0 /\
   clearcoat_roughness params0 == 0) /\
  params world0 = params0 /\
  in_range params0 /\
  (exists w', callback s v w = Done tt w' /\ in_range (params w')) /\
  (exists w', apply_preset name w = Done tt w' /\ in_range (params w')) /\
  (forall u, reachable u -> in_range (params u)).
Proof.
  intros Hrgb Hin Hv Hname.
  split; [repeat split; reflexivity|].
  split; [reflexivity|].
  split; [apply world0_invariant|].
  split; [|split].
  - destruct (callback_done s v w Hrgb) as (p' & Hd & _ & E).
    eexists. split; [exact E|]. cbn [params].
    eapply dragged_in_range; eassumption.
  - destruct (lookup_known name Hname) as (preset & El & Hlen & Hr).
    eexists. split.
    + unfold apply_preset. apply apply_preset_from_done; eassumption.
    + exact Hr.
  - intros u Hu. apply (reachable_invariant u Hu).
Qed.

Lemma store_defaults_and_ranges_witness :
  exists w', callback SliderRoughness 0.75 world0 = Done tt w' /\
             in_range (params w').
Proof.
  apply (store_defaults_and_ranges SliderRoughness 0.75 "wood" world0).
  - reflexivity.
  - apply world0_invariant.
  - split; unfold Qle; cbn; lia.
  - cbn. tauto.
Defined.

(** C10.  After a push (on a store with an RGB colour) the sphere actor and
    the torus actor hold the same value for each of the eight properties;
    and in every reachable state the two actors hold the same properties. *)
Theorem actors_agree_after_push (w : World) :
  rgb (params w) ->
  (exists w',
     update_materials w = Done tt w' /\
     Color (sphere w') = Color (torus w') /\
     Metallic (sphere w') = Metallic (torus w') /\
     Roughness (sphere w') = Roughness (torus w') /\
     BaseIOR (sphere w') = BaseIOR (torus w') /\
     Anisotropy (sphere w') = Anisotropy (torus w') /\
     AnisotropyRotation (sphere w') = AnisotropyRotation (torus w') /\
     CoatStrength (sphere w') = CoatStrength (torus w') /\
     CoatRoughness (sphere w') = CoatRoughness (torus w')) /\
  (forall u, reachable u -> sphere u = torus u).
Proof.
  intros Hrgb. split.
  - eexists. split; [apply update_materials_done; exact Hrgb|].
    cbn [sphere torus]. repeat split; reflexivity.
  - intros u Hu. apply (reachable_invariant u Hu).
Qed.

Lemma actors_agree_after_push_witness :
  exists w',
    update_materials world0 = Done tt w' /\
    Color (sphere w') = Color (torus w') /\
    Metallic (sphere w') = Metallic (torus w') /\
    Roughness (sphere w') = Roughness (torus w') /\
    BaseIOR (sphere w') = BaseIOR (torus w') /\
    Anisotropy (sphere w') = Anisotropy (torus w') /\
    AnisotropyRotation (sphere w') = AnisotropyRotation (torus w') /\
    CoatStrength (sphere w') = CoatStrength (torus w') /\
    CoatRoughness (sphere w') = CoatRoughness (torus w').
Proof.
  apply (actors_agree_after_push world0). reflexivity.
Defined.

End DemoFacts.

(** * Properties of the torus-knot sampler *)

Import Knot.

Section KnotFacts.

Local Open Scope float_scope.

(** ** The sampling grid *)

Lemma nth_map_seq {A : Type} (f : nat -> A) (n i : nat) (d : A) :
  (i < n)%nat -> nth i (map f (seq 0 n)) d = f i.
Proof.
  intros Hi.
  rewrite (nth_indep _ d (f 0%nat)) by (rewrite length_map, length_seq; lia).
  rewrite map_nth. rewrite seq_nth by lia. reflexivity.
Qed.

Lemma buildable_true (capacity num : Z) :
  (num <= capacity)%Z -> (num < max_dimension)%Z ->
  buildable capacity num = true.
Proof.
  intros H1 H2. unfold buildable.
  apply andb_true_intro. split; [apply Z.leb_le|apply Z.ltb_lt]; assumption.
Qed.




Lemma linspace_returns (capacity : Z) (start stop : float) (num : Z) :
  (0 <= num <= capacity)%Z -> (num < max_dimension)%Z ->
  exists t, linspace capacity start stop num = Returns t /\
            List.length t = Z.to_nat num.
Proof.
  intros [H0 H1] H2. unfold linspace.
  destruct (Z.ltb_spec num 0) as [Hneg|_]; [lia|].
  rewrite (buildable_true _ _ H1 H2). cbn [negb].
  eexists. split; [reflexivity|].
  rewrite length_map, length_seq. reflexivity.
Qed.

(** With at least two samples: the last item is [stop] itself, any other
    item [i] is [i * step + start]. *)
Lemma linspace_nth (capacity : Z) (start stop : float) (num : Z) (i : nat) :
  (2 <= num <= capacity)%Z -> (num < max_dimension)%Z ->
  (i < Z.to_nat num)%nat ->
  exists t,
    linspace capacity start stop num = Returns t /\
    nth i t 0
    = if (i =? Z.to_nat num - 1)%nat then stop
      else
        (if (stop - start) / float_of_nat (Z.to_nat num - 1) =? 0
         then float_of_nat i / float_of_nat (Z.to_nat num - 1)
              * (stop - start)
         else float_of_nat i
              * ((stop - start) / float_of_nat (Z.to_nat num - 1)))
        + start.
Proof.
  intros [H0 H1] H2 Hi. unfold linspace.
  destruct (Z.ltb_spec num 0) as [Hneg|_]; [lia|].
  rewrite (buildable_true _ _ H1 H2). cbn [negb].
  eexists. split; [reflexivity|].
  rewrite nth_map_seq by exact Hi.
  destruct (Nat.ltb_spec 1 (Z.to_nat num)) as [_|Hle]; [|lia].
  cbn [andb].
  destruct (Nat.eqb_spec i (Z.to_nat num - 1)) as [_|_]; [reflexivity|].
  destruct (Nat.ltb_spec 0 (Z.to_nat num - 1)) as [_|Hle]; [|lia].
  reflexivity.
Qed.

Lemma two_pi_minus_zero : two_pi - 0 = two_pi.
Proof. reflexivity. Qed.

(** ** The curve points *)

Lemma column_stack_curve (p q : float) (t : list float) :
  column_stack
    (zip_with Mul
       (map (fun c => Add c (Num 2)) (map (fun ti => Cos (Num (q * ti))) t))
       (map (fun ti => Cos (Num (p * ti))) t))
    (zip_with Mul
       (map (fun c => Add c (Num 2)) (map (fun ti => Cos (Num (q * ti))) t))
       (map (fun ti => Sin (Num (p * ti))) t))
    (map (fun ti => Neg (Sin (Num (q * ti)))) t)
  = map (curve p q) t.
Proof.
  unfold column_stack.
  induction t as [|ti t IH]; [reflexivity|].
  cbn [map zip_with fst snd]. rewrite IH. reflexivity.
Qed.

Lemma create_torus_knot_returns (capacity : Z) (p q : float) (resolution : Z)
    (t : list float) :
  knot_t capacity resolution = Returns t ->
  create_torus_knot capacity p q resolution
  = Returns (mkTube (map (curve p q) t) (resolution * 2) 0.3 20).
Proof.
  intros E. unfold create_torus_knot. rewrite E.
  cbv zeta. rewrite column_stack_curve. reflexivity.
Qed.

Lemma nth_curve (p q : float) (t : list float) (i : nat) :
  (i < List.length t)%nat ->
  nth i (map (curve p q) t) (Num 0, Num 0, Num 0) = curve p q (nth i t 0).
Proof.
  intros Hi.
  rewrite (nth_indep _ (Num 0, Num 0, Num 0) (curve p q 0))
    by (rewrite length_map; exact Hi).
  apply map_nth.
Qed.

(** The coordinates of a curve point, for any cosine and sine. *)
Lemma curve_value (cosine sine : float -> float) (p q t : float) :
  let r := cosine (q * t) + 2 in
  value cosine sine (fst (fst (curve p q t))) = r * cosine (p * t) /\
  value cosine sine (snd (fst (curve p q t))) = r * sine (p * t) /\
  value cosine sine (snd (curve p q t)) = - sine (q * t).
Proof. repeat split. Qed.

(** ** The claims about the torus-knot builder *)

(** C1, as stated, fails: in the script's own call (resolution 100) the
    second sample is [2*pi/99], which is larger than [2*pi/100], and the last
    sample is [2*pi] itself. *)
Lemma knot_grid_counterexample :
  exists t,
    knot_t 1000000 100 = Returns t /\
    nth 1 t 0 = two_pi / 99 /\
    (two_pi / 100 <? nth 1 t 0) = true /\
    nth 99 t 0 = two_pi.
Proof.
  eexists. split; [vm_compute; reflexivity|].
  repeat split; vm_compute; reflexivity.
Qed.

(** C1, amended.  For every resolution of at least 2 that the platform can
    build, the builder samples the curve [r = cos(q t) + 2],
    [x = r cos(p t)], [y = r sin(p t)], [z = - sin(q t)] at [resolution]
    values of [t] spread over the closed interval from 0 to [2 pi]: the
    sample of index [i] is [i * step + 0] with
    [step = 2 pi / (resolution - 1)], computed in binary64
    ([i / (resolution - 1) * 2 pi + 0] should the step round to 0), and the
    last sample is [2 pi] itself.  The sweep is asked for [2 * resolution]
    spline samples.  With resolution 1 the only sample is 0. *)
Theorem knot_samples_closed_interval (capacity : Z) (p q : float)
    (resolution : Z) (i : nat) :
  (2 <= resolution <= capacity)%Z -> (resolution < max_dimension)%Z ->
  (i < Z.to_nat resolution)%nat ->
  exists t tube,
    knot_t capacity resolution = Returns t /\
    create_torus_knot capacity p q resolution = Returns tube /\
    List.length t = Z.to_nat resolution /\
    List.length (points tube) = Z.to_nat resolution /\
    nth i t 0
    = (if (i =? Z.to_nat resolution - 1)%nat then two_pi
       else
         (if two_pi / float_of_nat (Z.to_nat resolution - 1) =? 0
          then float_of_nat i / float_of_nat (Z.to_nat resolution - 1)
               * two_pi
          else float_of_nat i
               * (two_pi / float_of_nat (Z.to_nat resolution - 1)))
         + 0) /\
    nth (Z.to_nat resolution - 1) t 0 = two_pi /\
    nth i (points tube) (Num 0, Num 0, Num 0) = curve p q (nth i t 0) /\
    n_points tube = (resolution * 2)%Z /\
    knot_t capacity 1 = Returns [0].
Proof.
  intros Hres Hmax Hi.
  destruct (linspace_returns capacity 0 two_pi resolution) as (t & Et & Hlen);
    [lia|exact Hmax|].
  destruct (linspace_nth capacity 0 two_pi resolution i Hres Hmax Hi)
    as (t1 & Et1 & Hti).
  destruct (linspace_nth capacity 0 two_pi resolution
                         (Z.to_nat resolution - 1) Hres Hmax)
    as (t2 & Et2 & Hlast); [lia|].
  rewrite Et in Et1, Et2. injection Et1 as <-. injection Et2 as <-.
  rewrite Nat.eqb_refl in Hlast. rewrite two_pi_minus_zero in Hti.
  exists t. eexists.
  split; [exact Et|].
  split; [apply create_torus_knot_returns; exact Et|].
  cbn [points n_points].
  split; [exact Hlen|].
  split; [rewrite length_map; exact Hlen|].
  split; [exact Hti|].
  split; [exact Hlast|].
  split; [apply nth_curve; rewrite Hlen; exact Hi|].
  split; [reflexivity|].
  unfold knot_t, linspace. cbn [Z.ltb Z.compare].
  rewrite buildable_true; [reflexivity|lia|reflexivity].
Qed.

Lemma knot_samples_closed_interval_witness :
  exists t tube,
    knot_t 1000000 100 = Returns t /\
    create_torus_knot 1000000 2 3 100 = Returns tube /\
    List.length t = Z.to_nat 100 /\
    List.length (points tube) = Z.to_nat 100 /\
    nth 1 t 0
    = (if (1 =? Z.to_nat 100 - 1)%nat then two_pi
       else
         (if two_pi / float_of_nat (Z.to_nat 100 - 1) =? 0
          then float_of_nat 1 / float_of_nat (Z.to_nat 100 - 1) * two_pi
          else float_of_nat 1 * (two_pi / float_of_nat (Z.to_nat 100 - 1)))
         + 0) /\
    nth (Z.to_nat 100 - 1) t 0 = two_pi /\
    nth 1 (points tube) (Num 0, Num 0, Num 0) = curve 2 3 (nth 1 t 0) /\
    n_points tube = (100 * 2)%Z /\
    knot_t 1000000 1 = Returns [0].
Proof.
  apply (knot_samples_closed_interval 1000000 2 3 100 1).
  - lia.
  - reflexivity.
  - cbn. lia.
Defined.




End KnotFacts.

(** * Further properties of the store, the callbacks and the presets *)

Import Ui.

Section DemoExtras.

Local Open Scope Q_scope.

(** ** Helpers *)

Lemma rgb_triple (p : Params) :
  rgb p -> exists a b c, base_color p = [a; b; c].
Proof.
  unfold rgb. destruct (base_color p) as [|a [|b [|c [|d l]]]];
    cbn; intros H; try discriminate H.
  exists a, b, c. reflexivity.
Qed.

Ltac triple p H :=
  let a := fresh "a" in
  let b := fresh "b" in
  let c := fresh "c" in
  let E := fresh "E" in
  destruct (rgb_triple p H) as (a & b & c & E);
  destruct p as [col m r sp an ar cc cr]; cbn in E; subst col.

Lemma callback_result (s : Slider) (v : Q) (w : World) (p' : Params) :
  rgb (params w) -> dragged s v (params w) = Some p' ->
  rgb p' /\
  callback s v w = Done tt (mkWorld p' (shown p') (shown p')
                                    (log w ++ pushed p')).
Proof.
  intros Hrgb Hd.
  destruct (callback_done s v w Hrgb) as (q & Hq & Hrgb' & E).
  rewrite Hd in Hq. injection Hq as <-. split; assumption.
Qed.

Lemma dragged_total (s : Slider) (v : Q) (p : Params) :
  rgb p -> exists p', dragged s v p = Some p' /\ rgb p'.
Proof.
  intros Hrgb. triple p Hrgb.
  destruct s; cbn; eexists; (split; [reflexivity|reflexivity]).
Qed.

Lemma dragged_twice (s : Slider) (v1 v2 : Q) (p p1 : Params) :
  rgb p -> dragged s v1 p = Some p1 -> dragged s v2 p1 = dragged s v2 p.
Proof.
  intros Hrgb H1. triple p Hrgb.
  destruct s; cbn in H1; injection H1 as <-; reflexivity.
Qed.

Lemma dragged_commute (s1 s2 : Slider) (v1 v2 : Q) (p p1 p2 p12 p21 : Params) :
  rgb p -> s1 <> s2 ->
  dragged s1 v1 p = Some p1 -> dragged s2 v2 p1 = Some p12 ->
  dragged s2 v2 p = Some p2 -> dragged s1 v1 p2 = Some p21 ->
  p12 = p21.
Proof.
  intros Hrgb Hne H1 H12 H2 H21. triple p Hrgb.
  destruct s1, s2; try congruence;
    cbn in H1; injection H1 as <-; cbn in H12; injection H12 as <-;
    cbn in H2; injection H2 as <-; cbn in H21; injection H21 as <-;
    reflexivity.
Qed.

Lemma dragged_same_value (s : Slider) (v : Q) (p p' : Params) :
  rgb p -> field s p = Some v -> dragged s v p = Some p' -> p' = p.
Proof.
  intros Hrgb Hf Hd. triple p Hrgb.
  destruct s; cbn in Hf; injection Hf as <-;
    cbn in Hd; injection Hd as <-; reflexivity.
Qed.

Lemma field_in_range (s : Slider) (v : Q) (p : Params) :
  in_range p -> field s p = Some v -> unit_interval v.
Proof.
  intros (Hc & Hm & Hr & Hs & Ha & Hq & Hk & Hz) Hf.
  destruct s; cbn [field] in Hf;
    try (injection Hf as <-; assumption);
    (apply nth_error_In in Hf;
     rewrite Forall_forall in Hc; apply Hc; exact Hf).
Qed.

Lemma apply_preset_total (name : string) (w : World) :
  exists w', apply_preset name w = Done tt w'.
Proof.
  destruct (in_dec string_dec name preset_names) as [Hin|Hnot].
  - destruct (lookup_known name Hin) as (preset & El & Hlen & _).
    eexists. unfold apply_preset.
    apply apply_preset_from_done; eassumption.
  - exists w. unfold apply_preset.
    apply apply_preset_from_absent. apply lookup_unknown. exact Hnot.
Qed.

Lemma apply_preset_known (name : string) (w : World) :
  In name preset_names ->
  exists preset,
    lookup presets name = Some preset /\
    apply_preset name w
    = Done tt (mkWorld (installed preset) (shown (installed preset))
                       (shown (installed preset))
                       (log w ++ pushed (installed preset)
                              ++ [Print ("Applied preset: " ++ name)])).
Proof.
  intros Hin.
  destruct (lookup_known name Hin) as (preset & El & Hlen & _).
  exists preset. split; [exact El|].
  unfold apply_preset. apply apply_preset_from_done; eassumption.
Qed.

Lemma unknown_preset_noop_helper (name : string) (w : World) :
  ~ In name preset_names -> apply_preset name w = Done tt w.
Proof.
  intros Hnot. unfold apply_preset.
  apply apply_preset_from_absent. apply lookup_unknown. exact Hnot.
Qed.

Lemma write_back (s : Slider) (v : Q) (w : World) :
  rgb (params w) -> field s (params w) = Some v ->
  callback s v w
  = Done tt (mkWorld (params w) (shown (params w)) (shown (params w))
                     (log w ++ pushed (params w))).
Proof.
  intros Hrgb Hf.
  destruct (dragged_total s v (params w) Hrgb) as (p' & Hd & _).
  destruct (callback_result s v w p' Hrgb Hd) as [_ E].
  rewrite (dragged_same_value s v _ _ Hrgb Hf Hd) in E. exact E.
Qed.

Lemma list_setitem_out_of_bounds (l : list Q) (i : nat) (v : Q) :
  (List.length l <= i)%nat -> list_setitem l i v = None.
Proof.
  revert i. induction l as [|h t IH]; intros i Hle; [reflexivity|].
  destruct i as [|j]; cbn in Hle; [lia|].
  cbn. rewrite IH by lia. reflexivity.
Qed.

(** What the actors hold in a running session: the store, once anything was
    pushed; before that, what [add_mesh] left in them. *)
Lemma reachable_shown (w : World) :
  reachable w ->
  (sphere w = shown (params w) /\ torus w = shown (params w) /\
   log w <> []) \/
  (sphere w = add_mesh (params w) /\ torus w = add_mesh (params w) /\
   log w = []).
Proof.
  induction 1 as [|s v w w' Hw IH Hv E|name w w' Hw IH E].
  - right. repeat split.
  - destruct (reachable_invariant w Hw) as (Hrgb & _ & _).
    destruct (callback_done s v w Hrgb) as (p' & _ & _ & E').
    rewrite E' in E. injection E as <-. left. cbn [sphere torus params log].
    split; [reflexivity|]. split; [reflexivity|].
    unfold pushed. intros Habs. apply app_eq_nil in Habs.
    destruct Habs as [_ Habs]. discriminate Habs.
  - destruct (in_dec string_dec name preset_names) as [Hin|Hnot].
    + destruct (apply_preset_known name w Hin) as (preset & _ & E').
      rewrite E' in E. injection E as <-. left.
      cbn [sphere torus params log].
      split; [reflexivity|]. split; [reflexivity|].
      unfold pushed. intros Habs. apply app_eq_nil in Habs.
      destruct Habs as [_ Habs]. discriminate Habs.
    + rewrite (unknown_preset_noop_helper name w Hnot) in E.
      injection E as <-. exact IH.
Qed.



(** ** The push and the slider callbacks *)

(** X3.  Pushing twice in a row changes nothing the first push had not
    already set: the store and both actors are the same after the second
    push, which only repeats the same seventeen calls. *)
Theorem push_twice (w : World) :
  rgb (params w) ->
  exists w1 w2,
    update_materials w = Done tt w1 /\
    update_materials w1 = Done tt w2 /\
    params w2 = params w1 /\ sphere w2 = sphere w1 /\ torus w2 = torus w1 /\
    log w2 = log w1 ++ pushed (params w) /\
    log w1 = log w ++ pushed (params w).
Proof.
  intros Hrgb. eexists. eexists.
  split; [apply update_materials_done; exact Hrgb|].
  split; [apply update_materials_done; exact Hrgb|].
  cbn [params sphere torus log]. repeat split; reflexivity.
Qed.

Lemma push_twice_witness :
  exists w1 w2,
    update_materials world0 = Done tt w1 /\
    update_materials w1 = Done tt w2 /\
    params w2 = params w1 /\ sphere w2 = sphere w1 /\ torus w2 = torus w1 /\
    log w2 = log w1 ++ pushed (params world0) /\
    log w1 = log world0 ++ pushed (params world0).
Proof.
  apply (push_twice world0). reflexivity.
Defined.

(** X4.  The callbacks do not clamp: a value outside [0, 1] is stored as it
    is, and the store is then out of range. *)
Theorem callback_does_not_clamp (s : Slider) (v : Q) (w : World) :
  rgb (params w) -> ~ unit_interval v ->
  exists w',
    callback s v w = Done tt w' /\
    field s (params w') = Some v /\
    ~ in_range (params w').
Proof.
  intros Hrgb Hv.
  destruct (dragged_total s v (params w) Hrgb) as (p' & Hd & _).
  destruct (callback_result s v w p' Hrgb Hd) as [_ E].
  eexists. split; [exact E|]. cbn [params].
  pose proof (dragged_field_same s v _ _ Hd) as Hf.
  split; [exact Hf|].
  intros Hin. apply Hv. eapply field_in_range; eassumption.
Qed.

Lemma callback_does_not_clamp_witness :
  exists w',
    callback SliderSpecular 2 world0 = Done tt w' /\
    field SliderSpecular (params w') = Some 2 /\
    ~ in_range (params w').
Proof.
  apply (callback_does_not_clamp SliderSpecular 2 world0).
  - reflexivity.
  - intros [_ H]. apply H. reflexivity.
Defined.

(** X5.  Dragging one slider twice: only the last value counts.  The store
    and both actors end up as if the first drag had not happened. *)
Theorem slider_last_write_wins (s : Slider) (v1 v2 : Q) (w : World) :
  rgb (params w) ->
  exists w1 w12 w2,
    callback s v1 w = Done tt w1 /\
    callback s v2 w1 = Done tt w12 /\
    callback s v2 w = Done tt w2 /\
    params w12 = params w2 /\ sphere w12 = sphere w2 /\ torus w12 = torus w2.
Proof.
  intros Hrgb.
  destruct (dragged_total s v1 (params w) Hrgb) as (p1 & H1 & Hrgb1).
  destruct (dragged_total s v2 (params w) Hrgb) as (p2 & H2 & _).
  destruct (callback_result s v1 w p1 Hrgb H1) as [_ E1].
  destruct (callback_result s v2 w p2 Hrgb H2) as [_ E2].
  assert (H12 : dragged s v2 p1 = Some p2)
    by (rewrite (dragged_twice s v1 v2 _ _ Hrgb H1); exact H2).
  eexists. eexists. eexists.
  split; [exact E1|].
  split; [apply callback_result; [exact Hrgb1 | exact H12]|].
  split; [exact E2|].
  cbn [params sphere torus]. repeat split; reflexivity.
Qed.

Lemma slider_last_write_wins_witness :
  exists w1 w12 w2,
    callback Red 0.25 world0 = Done tt w1 /\
    callback Red 0.75 w1 = Done tt w12 /\
    callback Red 0.75 world0 = Done tt w2 /\
    params w12 = params w2 /\ sphere w12 = sphere w2 /\ torus w12 = torus w2.
Proof.
  apply (slider_last_write_wins Red 0.25 0.75 world0). reflexivity.
Defined.

(** X6.  Two different sliders can be dragged in either order: the store and
    both actors end up the same. *)
Theorem sliders_commute (s1 s2 : Slider) (v1 v2 : Q) (w : World) :
  rgb (params w) -> s1 <> s2 ->
  exists w1 w12 w2 w21,
    callback s1 v1 w = Done tt w1 /\
    callback s2 v2 w1 = Done tt w12 /\
    callback s2 v2 w = Done tt w2 /\
    callback s1 v1 w2 = Done tt w21 /\
    params w12 = params w21 /\
    sphere w12 = sphere w21 /\ torus w12 = torus w21.
Proof.
  intros Hrgb Hne.
  destruct (dragged_total s1 v1 (params w) Hrgb) as (p1 & H1 & Hrgb1).
  destruct (dragged_total s2 v2 (params w) Hrgb) as (p2 & H2 & Hrgb2).
  destruct (dragged_total s2 v2 p1 Hrgb1) as (p12 & H12 & _).
  destruct (dragged_total s1 v1 p2 Hrgb2) as (p21 & H21 & _).
  destruct (callback_result s1 v1 w p1 Hrgb H1) as [_ E1].
  destruct (callback_result s2 v2 w p2 Hrgb H2) as [_ E2].
  pose proof (dragged_commute s1 s2 v1 v2 _ _ _ _ _ Hrgb Hne H1 H12 H2 H21)
    as Heq.
  eexists. eexists. eexists. eexists.
  split; [exact E1|].
  split; [apply callback_result; [exact Hrgb1 | exact H12]|].
  split; [exact E2|].
  split; [apply callback_result; [exact Hrgb2 | exact H21]|].
  cbn [params sphere torus]. rewrite Heq. repeat split; reflexivity.
Qed.

Lemma sliders_commute_witness :
  exists w1 w12 w2 w21,
    callback Blue 0.25 world0 = Done tt w1 /\
    callback SliderClearcoat 0.75 w1 = Done tt w12 /\
    callback SliderClearcoat 0.75 world0 = Done tt w2 /\
    callback Blue 0.25 w2 = Done tt w21 /\
    params w12 = params w21 /\
    sphere w12 = sphere w21 /\ torus w12 = torus w21.
Proof.
  apply (sliders_commute Blue SliderClearcoat 0.25 0.75 world0).
  - reflexivity.
  - discriminate.
Defined.

(** X7.  Handing a slider's callback the value its field already holds
    leaves the store as it is; the callback still pushes, so the actors are
    brought in line with the store. *)
Theorem slider_write_back (s : Slider) (v : Q) (w : World) :
  rgb (params w) -> field s (params w) = Some v ->
  exists w',
    callback s v w = Done tt w' /\
    params w' = params w /\
    sphere w' = shown (params w) /\ torus w' = shown (params w) /\
    log w' = log w ++ pushed (params w).
Proof.
  intros Hrgb Hf. eexists.
  split; [apply write_back; eassumption|].
  cbn [params sphere torus log]. repeat split; reflexivity.
Qed.

Lemma slider_write_back_witness :
  exists w',
    callback SliderRoughness 0.5 world0 = Done tt w' /\
    params w' = params world0 /\
    sphere w' = shown (params world0) /\
    torus w' = shown (params world0) /\
    log w' = log world0 ++ pushed (params world0).
Proof.
  apply (slider_write_back SliderRoughness 0.5 world0); reflexivity.
Defined.

(** X8.  Every slider callback ends with exactly one push of the updated
    store: afterwards both actors show the new store, and the log has grown
    by sixteen setter calls followed by one redraw. *)
Theorem callback_pushes_once (s : Slider) (v : Q) (w : World) :
  rgb (params w) ->
  exists w',
    callback s v w = Done tt w' /\
    sphere w' = shown (params w') /\ torus w' = shown (params w') /\
    log w' = log w ++ pushed (params w') /\
    filter is_call (pushed (params w'))
    = map (Call sphere_actor) (setters (params w'))
      ++ map (Call torus_actor) (setters (params w')) /\
    filter is_render (pushed (params w')) = [Render] /\
    last (log w') Render = Render.
Proof.
  intros Hrgb.
  destruct (callback_done s v w Hrgb) as (p' & _ & _ & E).
  eexists. split; [exact E|]. cbn [params sphere torus log].
  split; [reflexivity|]. split; [reflexivity|]. split; [reflexivity|].
  split; [reflexivity|]. split; [reflexivity|].
  unfold pushed. rewrite !app_assoc. apply last_last.
Qed.

Lemma callback_pushes_once_witness :
  exists w',
    callback Green 0.25 world0 = Done tt w' /\
    sphere w' = shown (params w') /\ torus w' = shown (params w') /\
    log w' = log world0 ++ pushed (params w') /\
    filter is_call (pushed (params w'))
    = map (Call sphere_actor) (setters (params w'))
      ++ map (Call torus_actor) (setters (params w')) /\
    filter is_render (pushed (params w')) = [Render] /\
    last (log w') Render = Render.
Proof.
  apply (callback_pushes_once Green 0.25 world0). reflexivity.
Defined.

(** X9.  A colour-channel callback on a colour list too short for its index
    raises [IndexError] before anything is written or pushed: the world is
    left as it was. *)
Theorem channel_index_error (s : Slider) (i : nat) (v : Q) (w : World) :
  channel s = Some i ->
  (List.length (base_color (params w)) <= i)%nat ->
  callback s v w = Raised IndexError w.
Proof.
  intros Hc Hlen.
  assert (E : bind (assign_channel i v) (fun _ => update_materials) w
              = Raised IndexError w).
  { unfold bind, assign_channel.
    rewrite (list_setitem_out_of_bounds _ _ _ Hlen). reflexivity. }
  destruct s; cbn in Hc; try discriminate Hc;
    injection Hc as <-; exact E.
Qed.

Lemma channel_index_error_witness :
  callback Blue 0.25
           (mkWorld (set_base_color [0.5; 0.5] params0)
                    (add_mesh params0) (add_mesh params0) [])
  = Raised IndexError
           (mkWorld (set_base_color [0.5; 0.5] params0)
                    (add_mesh params0) (add_mesh params0) []).
Proof.
  apply (channel_index_error Blue 2).
  - reflexivity.
  - cbn. lia.
Defined.

(** ** Presets *)




(** X11.  The last preset wins: whatever name was applied before (known or
    not) and whatever the store held, applying a known preset leaves the
    store and both actors exactly as applying it directly would. *)
Theorem last_preset_wins (a b : string) (w : World) :
  In b preset_names ->
  exists w1 w2 wb,
    apply_preset a w = Done tt w1 /\
    apply_preset b w1 = Done tt w2 /\
    apply_preset b w = Done tt wb /\
    params w2 = params wb /\ sphere w2 = sphere wb /\ torus w2 = torus wb.
Proof.
  intros Hin.
  destruct (apply_preset_total a w) as (w1 & E1).
  destruct (apply_preset_known b w1 Hin) as (preset & El & E2).
  destruct (apply_preset_known b w Hin) as (preset' & El' & Eb).
  rewrite El in El'. injection El' as <-.
  exists w1. eexists. eexists.
  split; [exact E1|]. split; [exact E2|]. split; [exact Eb|].
  cbn [params sphere torus]. repeat split; reflexivity.
Qed.

Lemma last_preset_wins_witness :
  exists w1 w2 wb,
    apply_preset "gold" world0 = Done tt w1 /\
    apply_preset "rubber" w1 = Done tt w2 /\
    apply_preset "rubber" world0 = Done tt wb /\
    params w2 = params wb /\ sphere w2 = sphere wb /\ torus w2 = torus wb.
Proof.
  apply (last_preset_wins "gold" "rubber" world0). cbn. tauto.
Defined.

(** ** A running session *)

(** X12.  In a running session nothing raises: from every reachable state,
    every slider callback returns normally for any value, and so does
    [apply_preset] for any name. *)
Theorem session_never_raises (w : World) (s : Slider) (v : Q)
    (name : string) :
  reachable w ->
  (exists w', callback s v w = Done tt w') /\
  (exists w', apply_preset name w = Done tt w').
Proof.
  intros Hw. destruct (reachable_invariant w Hw) as (Hrgb & _ & _).
  split.
  - destruct (callback_done s v w Hrgb) as (p' & _ & _ & E).
    eexists. exact E.
  - apply apply_preset_total.
Qed.

Lemma session_never_raises_witness :
  (exists w', callback Red 3 world0 = Done tt w') /\
  (exists w', apply_preset "silver" world0 = Done tt w').
Proof.
  apply (session_never_raises world0 Red 3 "silver"). apply reach_start.
Defined.

(** X13.  In a running session the actors are never stale: in every
    reachable state in which something has been pushed, each of the two
    actors holds the store's value for each of the eight properties. *)
Theorem session_actors_show_store (w : World) (a : Actor) :
  reachable w -> log w <> [] -> property_of a w = shown (params w).
Proof.
  intros Hw Hlog.
  destruct (reachable_shown w Hw) as [(Hs & Ht & _)|(_ & _ & Hl)].
  - destruct a; cbn [property_of]; assumption.
  - contradiction.
Qed.

Lemma session_actors_show_store_witness :
  exists w',
    callback SliderMetallic 1 world0 = Done tt w' /\
    property_of torus_actor w' = shown (params w').
Proof.
  eexists. split; [cbv; reflexivity|].
  apply session_actors_show_store.
  - eapply (reach_slider SliderMetallic 1 world0).
    + apply reach_start.
    + split; unfold Qle; cbn; lia.
    + cbv. reflexivity.
  - discriminate.
Defined.

(** X14.  In every reachable state, an IOR held by an actor lies between 1.0
    and 1.8. *)
Theorem session_ior_in_range (w : World) (a : Actor) (x : Q) :
  reachable w -> BaseIOR (property_of a w) = Some x -> 1.0 <= x <= 1.8.
Proof.
  intros Hw Hx.
  destruct (reachable_invariant w Hw) as (_ & Hin & _).
  destruct Hin as (_ & _ & _ & [H0 H1] & _).
  destruct (reachable_shown w Hw) as [(Hs & Ht & _)|(Hs & Ht & _)];
    destruct a; cbn [property_of] in Hx; rewrite ?Hs, ?Ht in Hx;
    cbn [shown add_mesh BaseIOR] in Hx; try discriminate Hx;
    injection Hx as <-; unfold ior; split; Lqa.lra.
Qed.

Lemma session_ior_in_range_witness : 1.0 <= ior 0.5 <= 1.8.
Proof.
  eapply (session_ior_in_range _ sphere_actor (ior 0.5)).
  - eapply (reach_slider SliderMetallic 1 world0).
    + apply reach_start.
    + split; unfold Qle; cbn; lia.
    + cbv. reflexivity.
  - reflexivity.
Defined.



(** ** The slider widgets and the banner *)

(** X16.  The ten sliders are wired to the fields they display: on a store
    with an RGB colour the ten [create_slider] calls go through, and calling
    any slider's callback with the initial value that slider was given
    leaves the store as it is. *)
Theorem sliders_show_their_field (w : World) :
  rgb (params w) ->
  exists ws,
    add_sliders (params w) = Some ws /\
    List.length ws = 10%nat /\
    forall sl, In sl ws ->
      exists w',
        widget_callback sl (widget_value sl) w = Done tt w' /\
        params w' = params w.
Proof.
  intros Hrgb.
  destruct (rgb_triple _ Hrgb) as (a & b & c & Ecol).
  unfold add_sliders. rewrite Ecol. cbn [nth_error].
  eexists. split; [reflexivity|]. split; [reflexivity|].
  intros sl Hin.
  assert (Hwb : forall s v, field s (params w) = Some v ->
            exists w', callback s v w = Done tt w' /\ params w' = params w).
  { intros s v Hf. eexists. split; [apply write_back; assumption|].
    reflexivity. }
  destruct Hin as [<-|Hin];
    [apply (Hwb Red); cbn [field]; rewrite Ecol; reflexivity|].
  destruct Hin as [<-|Hin];
    [apply (Hwb Green); cbn [field]; rewrite Ecol; reflexivity|].
  destruct Hin as [<-|Hin];
    [apply (Hwb Blue); cbn [field]; rewrite Ecol; reflexivity|].
  destruct Hin as [<-|Hin]; [apply (Hwb SliderMetallic); reflexivity|].
  destruct Hin as [<-|Hin]; [apply (Hwb SliderRoughness); reflexivity|].
  destruct Hin as [<-|Hin]; [apply (Hwb SliderSpecular); reflexivity|].
  destruct Hin as [<-|Hin]; [apply (Hwb SliderAnisotropic); reflexivity|].
  destruct Hin as [<-|Hin]; [apply (Hwb SliderAnisoRotation); reflexivity|].
  destruct Hin as [<-|Hin]; [apply (Hwb SliderClearcoat); reflexivity|].
  destruct Hin as [<-|Hin]; [apply (Hwb SliderClearcoatRough); reflexivity|].
  contradiction.
Qed.

Lemma sliders_show_their_field_witness :
  exists ws,
    add_sliders (params world0) = Some ws /\
    List.length ws = 10%nat /\
    forall sl, In sl ws ->
      exists w',
        widget_callback sl (widget_value sl) world0 = Done tt w' /\
        params w' = params world0.
Proof.
  apply (sliders_show_their_field world0). reflexivity.
Defined.

(** X17.  The sliders never overlap and never start outside their track:
    every slider has the domain [0.0, 1.0] and a horizontal track from
    x = 0.02 to x = 0.3, the tracks are stacked strictly downwards in
    registration order, no two titles are equal, and on a store in range
    every initial value lies inside the slider's domain. *)
Theorem sliders_layout (p : Params) :
  rgb p ->
  exists ws,
    add_sliders p = Some ws /\
    Forall (fun sl =>
              widget_range sl = (0.0, 1.0) /\
              fst (widget_pointa sl) = 0.02 /\
              fst (widget_pointb sl) = 0.3 /\
              snd (widget_pointa sl) = snd (widget_pointb sl)) ws /\
    descending (map (fun sl => snd (widget_pointa sl)) ws) /\
    NoDup (map widget_title ws) /\
    (in_range p ->
     Forall (fun sl =>
               fst (widget_range sl) <= widget_value sl /\
               widget_value sl <= snd (widget_range sl)) ws).
Proof.
  intros Hrgb.
  destruct (rgb_triple _ Hrgb) as (a & b & c & Ecol).
  unfold add_sliders. rewrite Ecol. cbn [nth_error].
  eexists. split; [reflexivity|].
  split; [repeat constructor|].
  split.
  { cbn. repeat split; unfold Qlt; cbn; lia. }
  split.
  { cbn [map widget_title create_slider].
    repeat (constructor;
            [cbn; intros H;
             repeat (destruct H as [H|H]; [discriminate H|]); exact H|]).
    constructor. }
  intros (Hc & [Hm0 Hm1] & [Hr0 Hr1] & [Hs0 Hs1] & [Ha0 Ha1] & [Hq0 Hq1]
          & [Hk0 Hk1] & [Hz0 Hz1]).
  rewrite Ecol in Hc.
  inversion Hc as [|? ? [Ha_0 Ha_1] Hc1]; subst.
  inversion Hc1 as [|? ? [Hb_0 Hb_1] Hc2]; subst.
  inversion Hc2 as [|? ? [Hc_0 Hc_1] _]; subst.
  repeat constructor; cbn [fst snd widget_range widget_value create_slider];
    Lqa.lra.
Qed.

Lemma sliders_layout_witness :
  exists ws,
    add_sliders params0 = Some ws /\
    Forall (fun sl =>
              widget_range sl = (0.0, 1.0) /\
              fst (widget_pointa sl) = 0.02 /\
              fst (widget_pointb sl) = 0.3 /\
              snd (widget_pointa sl) = snd (widget_pointb sl)) ws /\
    descending (map (fun sl => snd (widget_pointa sl)) ws) /\
    NoDup (map widget_title ws) /\
    (in_range params0 ->
     Forall (fun sl =>
               fst (widget_range sl) <= widget_value sl /\
               widget_value sl <= snd (widget_range sl)) ws).
Proof.
  apply (sliders_layout params0). reflexivity.
Defined.

(** X18.  The banner and the presets agree: the commands the banner shows
    name exactly the seven presets, in the dictionary's order, and running
    any of them returns normally and ends by printing that the preset was
    applied. *)
Theorem banner_commands_work (line : string) (w : World) :
  In line banner_presets ->
  map quoted banner_presets = map Some preset_names /\
  exists name w',
    quoted line = Some name /\
    In name preset_names /\
    apply_preset name w = Done tt w' /\
    last (log w') Render = Print ("Applied preset: " ++ name).
Proof.
  intros Hin. split; [reflexivity|].
  assert (Hq : exists name, quoted line = Some name /\ In name preset_names).
  { cbn in Hin.
    repeat (destruct Hin as [<-|Hin];
            [eexists; split; [reflexivity|cbn; tauto]|]).
    contradiction. }
  destruct Hq as (name & Hq & Hname).
  destruct (apply_preset_known name w Hname) as (preset & _ & E).
  exists name. eexists. split; [exact Hq|]. split; [exact Hname|].
  split; [exact E|]. cbn [log].
  rewrite !app_assoc. apply last_last.
Qed.

Lemma banner_commands_work_witness :
  map quoted banner_presets = map Some preset_names /\
  exists name w',
    quoted "  - apply_preset('brushed_metal')  # Anisotropic metal"
    = Some name /\
    In name preset_names /\
    apply_preset name world0 = Done tt w' /\
    last (log w') Render = Print ("Applied preset: " ++ name).
Proof.
  apply (banner_commands_work
           "  - apply_preset('brushed_metal')  # Anisotropic metal" world0).
  cbn. tauto.
Defined.

End DemoExtras.
